(** * A shallow embedding of LSH, the shell of src/src/main.c

    The interpreter reads a line from standard input, appends a record of it
    to [history.txt], splits it into tokens with [strtok] and either runs a
    builtin ([cd], [help], [exit], [history]) or forks a child and waits for
    it.  The process state the code touches (standard streams, the working
    directory, the history file, [fork] and [waitpid]) is an explicit record
    [state]; every C function becomes a function over it. *)

From Stdlib Require Import Bool ZArith List String Ascii Lia.
Import ListNotations.
Open Scope string_scope.

(** ** Characters and C strings *)

Definition NUL : ascii := "000".
Definition NL : ascii := "010".
Definition dquote : string := String "034" EmptyString.

(** [LSH_TOK_DELIM] is [" \t\r\n\a"]. *)
Definition LSH_TOK_DELIM : list ascii := [" "; "009"; "013"; "010"; "007"]%char.

Definition is_delim (c : ascii) : bool := existsb (Ascii.eqb c) LSH_TOK_DELIM.

(** A character buffer read as a C string: everything before the first NUL. *)
Fixpoint cstr (s : list ascii) : list ascii :=
  match s with
  | [] => []
  | c :: cs => if Ascii.eqb c NUL then [] else c :: cstr cs
  end.

(** [tolower] in the C locale. *)
Definition tolower (c : ascii) : ascii :=
  let n := nat_of_ascii c in
  if (65 <=? n)%nat && (n <=? 90)%nat then ascii_of_nat (n + 32) else c.

(** [strcasecmp]: compare lower-cased characters up to the first difference
    or the end of the first string; the result is the difference there. *)
Fixpoint strcasecmp (s1 s2 : string) : Z :=
  match s1, s2 with
  | EmptyString, EmptyString => 0
  | EmptyString, String c2 _ => - Z.of_nat (nat_of_ascii (tolower c2))
  | String c1 _, EmptyString => Z.of_nat (nat_of_ascii (tolower c1))
  | String c1 r1, String c2 r2 =>
      if Ascii.eqb (tolower c1) (tolower c2) then strcasecmp r1 r2
      else Z.of_nat (nat_of_ascii (tolower c1)) - Z.of_nat (nat_of_ascii (tolower c2))
  end.

(** [strcmp(a, b) == 0] holds exactly when the two C strings are equal. *)
Definition strcmp_eq (a b : string) : bool := String.eqb a b.

(** ** [strtok] on a writable buffer *)

(** [s += strspn(s, delim)]. *)
Fixpoint skip_delims (s : list ascii) : list ascii :=
  match s with
  | [] => []
  | c :: cs => if is_delim c then skip_delims cs else s
  end.

(** [end = s + strcspn(s, delim)]: the token ends at a NUL (the saved
    position stays on it) or at a delimiter (overwritten by NUL, the saved
    position is just past it).  The end of the list is the terminating NUL. *)
Fixpoint scan_token (s : list ascii) : list ascii * list ascii :=
  match s with
  | [] => ([], [])
  | c :: cs =>
      if Ascii.eqb c NUL then ([], s)
      else if is_delim c then ([], cs)
      else let '(tok, rest) := scan_token cs in (c :: tok, rest)
  end.

(** One call of [strtok]: [None] is the NULL result, otherwise the token and
    the saved position for the next call [strtok(NULL, delim)]. *)
Definition strtok (s : list ascii) : option (list ascii * list ascii) :=
  match skip_delims s with
  | [] => None
  | c :: cs => if Ascii.eqb c NUL then None else Some (scan_token (c :: cs))
  end.

(** The [while (token != NULL)] loop of [lsh_split_line]; the fuel is never
    the limit (each call consumes at least one character). *)
Fixpoint split_tokens (fuel : nat) (s : list ascii) : list string :=
  match fuel with
  | O => []
  | S fuel' =>
      match strtok s with
      | None => []
      | Some (tok, rest) => string_of_list_ascii tok :: split_tokens fuel' rest
      end
  end.

(** [lsh_split_line]: the argument vector.  [args[i]] is [nth_error args i];
    the NULL sentinel [tokens[position] = NULL] is the end of the list. *)
Definition lsh_split_line (line : list ascii) : list string :=
  split_tokens (S (List.length line)) line.

(** ** [lsh_read_line] *)

(** [getchar] until ['\n'] or EOF; the empty remaining input is EOF, which
    stays EOF.  The newline is consumed and not stored. *)
Fixpoint lsh_read_line (inp : list ascii) : list ascii * list ascii :=
  match inp with
  | [] => ([], [])
  | c :: cs =>
      if Ascii.eqb c NL then ([], cs)
      else let '(l, r) := lsh_read_line cs in (c :: l, r)
  end.

(** ** Wait statuses, as the [int] that [waitpid] stores *)

Local Open Scope Z_scope.

Definition WIFEXITED (s : Z) : bool := Z.land s 127 =? 0.

(** [(signed char) x] *)
Definition signed_char (x : Z) : Z :=
  let b := Z.land x 255 in if b <? 128 then b else b - 256.

(** glibc: [((signed char) (((status) & 0x7f) + 1) >> 1) > 0]. *)
Definition WIFSIGNALED (s : Z) : bool :=
  Z.shiftr (signed_char (Z.land s 127 + 1)) 1 >? 0.

Definition WIFSTOPPED (s : Z) : bool := Z.land s 255 =? 127.

(** How the kernel encodes a normal exit, a death by signal and a stop. *)
Definition W_EXITCODE (ret sig : Z) : Z := Z.lor (Z.shiftl ret 8) sig.
Definition W_STOPCODE (sig : Z) : Z := Z.lor (Z.shiftl sig 8) 127.

Local Close Scope Z_scope.

(** ** The process state *)

(** A child created by [fork]: the argument vector it hands to [execvp] and
    the working directory it inherits. *)
Record child := mk_child { c_argv : list string; c_cwd : string }.

Record state := mk_state {
  input : list ascii;                    (** what stdin still holds; [] is EOF *)
  stdout : list string;                  (** chunks written to stdout *)
  stderr : list string;                  (** chunks written to stderr *)
  cwd : string;                          (** the process-wide working directory *)
  dirs : list string;                    (** directories [chdir] can enter *)
  getcwd_ok : bool;                      (** [getcwd] can still name [cwd] *)
  history_files : string -> option (list string);
      (** [history.txt] in each directory, by lines; [None] if absent *)
  can_append : bool;                     (** [fopen("history.txt", "a")] succeeds
                                             (never in a removed directory) *)
  clock : string;                        (** [strftime("%Y-%m-%d %H:%M:%S")] of now *)
  fork_env : nat -> option (list Z);
      (** the k-th [fork]: [None] if it fails, else the statuses the
          successive [waitpid] calls on that child store *)
  nforks : nat;                          (** [fork] calls made so far *)
  children : list child                  (** children created so far *)
}.

Definition set_input (i : list ascii) (st : state) : state :=
  mk_state i st.(stdout) st.(stderr) st.(cwd) st.(dirs) st.(getcwd_ok)
    st.(history_files) st.(can_append) st.(clock) st.(fork_env) st.(nforks) st.(children).

Definition print_out (msg : string) (st : state) : state :=
  mk_state st.(input) (st.(stdout) ++ [msg]) st.(stderr) st.(cwd) st.(dirs) st.(getcwd_ok)
    st.(history_files) st.(can_append) st.(clock) st.(fork_env) st.(nforks) st.(children).

Definition print_err (msg : string) (st : state) : state :=
  mk_state st.(input) st.(stdout) (st.(stderr) ++ [msg]) st.(cwd) st.(dirs) st.(getcwd_ok)
    st.(history_files) st.(can_append) st.(clock) st.(fork_env) st.(nforks) st.(children).

Definition set_cwd (d : string) (st : state) : state :=
  mk_state st.(input) st.(stdout) st.(stderr) d st.(dirs) st.(getcwd_ok)
    st.(history_files) st.(can_append) st.(clock) st.(fork_env) st.(nforks) st.(children).

(** Replace [history.txt] of the working directory. *)
Definition set_history (v : option (list string)) (st : state) : state :=
  mk_state st.(input) st.(stdout) st.(stderr) st.(cwd) st.(dirs) st.(getcwd_ok)
    (fun d => if String.eqb d st.(cwd) then v else st.(history_files) d)
    st.(can_append) st.(clock) st.(fork_env) st.(nforks) st.(children).

(** [fork()]: one more call; a created child is recorded. *)
Definition record_fork (c : option child) (st : state) : state :=
  mk_state st.(input) st.(stdout) st.(stderr) st.(cwd) st.(dirs) st.(getcwd_ok)
    st.(history_files) st.(can_append) st.(clock) st.(fork_env) (S st.(nforks))
    (match c with Some ch => st.(children) ++ [ch] | None => st.(children) end).

(** The history file of the working directory ([history.txt] is relative). *)
Definition history_file (st : state) : option (list string) :=
  st.(history_files) st.(cwd).

(** ** [errno] and [perror] *)

Inductive errno := ENOENT | EAGAIN | ERANGE.

Definition strerror (e : errno) : string :=
  match e with
  | ENOENT => "No such file or directory"
  | EAGAIN => "Resource temporarily unavailable"
  | ERANGE => "Numerical result out of range"
  end.

Definition perror (msg : string) (e : errno) (st : state) : state :=
  print_err (msg ++ ": " ++ strerror e ++ String NL EmptyString) st.

Definition nl : string := String NL EmptyString.

(** ** System calls *)

(** [chdir(d)] as the kernel resolves the path: [d] is cut at each [/];
    the walk starts at the root for an absolute path and at the working
    directory otherwise; an empty component and [.] stay where the walk is,
    [..] goes to the parent (the root is its own parent), and any other name
    must be an existing directory under the current one.  [dirs] lists the
    existing directories by their canonical absolute paths (the root always
    exists); an empty path fails, as [chdir("")] does with [ENOENT]. *)
Fixpoint path_comps (s cur : list ascii) : list string :=
  match s with
  | [] => [string_of_list_ascii cur]
  | c :: s' =>
      if Ascii.eqb c "/" then string_of_list_ascii cur :: path_comps s' []
      else path_comps s' (cur ++ [c])%list
  end.

(** The characters of a reversed path up to and including its last [/]. *)
Fixpoint drop_comp (l : list ascii) : list ascii :=
  match l with
  | [] => []
  | c :: l' => if Ascii.eqb c "/" then l' else drop_comp l'
  end.

Definition parent_dir (p : string) : string :=
  match rev (drop_comp (rev (list_ascii_of_string p))) with
  | [] => "/"
  | l => string_of_list_ascii l
  end.

Definition child_dir (cur n : string) : string :=
  if String.eqb cur "/" then "/" ++ n else cur ++ "/" ++ n.

Fixpoint walk (ds : list string) (cur : string) (cs : list string) : option string :=
  match cs with
  | [] => Some cur
  | c :: cs' =>
      if String.eqb c EmptyString || String.eqb c "." then walk ds cur cs'
      else if String.eqb c ".." then walk ds (parent_dir cur) cs'
      else if existsb (String.eqb (child_dir cur c)) ds then walk ds (child_dir cur c) cs'
      else None
  end.

(** The directory [chdir(d)] enters, if any. *)
Definition chdir_target (d : string) (st : state) : option string :=
  if String.eqb d EmptyString then None
  else walk st.(dirs) (if String.prefix "/" d then "/" else st.(cwd))
         (path_comps (list_ascii_of_string d) []).

Definition chdir (d : string) (st : state) : option state :=
  match chdir_target d st with
  | Some p => Some (set_cwd p st)
  | None => None
  end.

(** [getcwd(cwd, 1024)]: [ERANGE] when the path and its NUL do not fit;
    [ENOENT] when the working directory was removed (then [fopen] in it
    fails too: [can_append] is false there). *)
Definition getcwd (st : state) : errno + string :=
  if (1024 <=? String.length st.(cwd))%nat then inl ERANGE
  else if st.(getcwd_ok) then inr st.(cwd) else inl ENOENT.

(** [remove("history.txt")]. *)
Definition remove_history (st : state) : option state :=
  match history_file st with
  | None => None
  | Some _ => Some (set_history None st)
  end.

(** ** Builtins *)

Definition handler := list string -> state -> Z * state.

(** [lsh_history]. *)
Definition lsh_history (args : list string) (st : state) : Z * state :=
  match nth_error args 1 with
  | Some a1 =>
      if (strcasecmp a1 "-c" =? 0)%Z then
        match remove_history st with
        | None => (1%Z, perror "Error clearing history" ENOENT st)
        | Some st' => (1%Z, print_out ("History cleared successfully." ++ nl) st')
        end
      else
        (1%Z, print_err ("Usage: history [-c]" ++ nl)
                (print_err ("Invalid option: " ++ a1 ++ nl) st))
  | None =>
      let st1 := print_out ("History of commands used:" ++ nl) st in
      match history_file st1 with
      | None => (1%Z, print_err ("No history found." ++ nl) st1)
      | Some ls => (1%Z, fold_left (fun s l => print_out l s) ls st1)
      end
  end.

(** [lsh_cd]. *)
Definition lsh_cd (args : list string) (st : state) : Z * state :=
  match nth_error args 1 with
  | None => (1%Z, print_err ("lsh: expected argument to " ++ dquote ++ "cd" ++ dquote ++ nl) st)
  | Some d =>
      match chdir d st with
      | Some st' => (1%Z, st')
      | None => (1%Z, perror "lsh" ENOENT st)
      end
  end.

(** [lsh_exit]. *)
Definition lsh_exit (args : list string) (st : state) : Z * state := (0%Z, st).

(** [builtin_str]. *)
Definition builtin_str : list string := ["cd"; "help"; "exit"; "history"].

Definition lsh_num_builtins : nat := List.length builtin_str.

(** [lsh_help]: the banner and the [for] loop over [builtin_str]. *)
Definition lsh_help (args : list string) (st : state) : Z * state :=
  let st1 := print_out ("Type program names and arguments, and hit enter." ++ nl)
               (print_out ("Kritarth Dande's LSH" ++ nl) st) in
  let st2 := print_out ("The following are built in:" ++ nl) st1 in
  let st3 := fold_left (fun s b => print_out ("  " ++ b ++ nl) s) builtin_str st2 in
  (1%Z, print_out ("Use the man command for information on other programs." ++ nl) st3).

(** [builtin_func]. *)
Definition builtin_func : list handler := [lsh_cd; lsh_help; lsh_exit; lsh_history].

(** ** [lsh_launch] *)

(** The outcome of a call that may block forever in [waitpid]. *)
Inductive exec_result :=
| Done (status : Z) (st : state)
| Hang (st : state).

Definition exec_state (r : exec_result) : state :=
  match r with Done _ st | Hang st => st end.

(** [do { waitpid(pid, &status, WUNTRACED); } while (!WIFEXITED(status) &&
    !WIFSIGNALED(status));] over the statuses the successive calls store.
    [Some s]: the loop ends on [s]; [None]: the parent is still waiting. *)
Fixpoint wait_loop (ws : list Z) : option Z :=
  match ws with
  | [] => None
  | s :: ws' =>
      if negb (WIFEXITED s) && negb (WIFSIGNALED s) then wait_loop ws' else Some s
  end.

(** [lsh_launch]: the child runs [execvp(args[0], args)] in the working
    directory it inherits; the parent waits for it. *)
Definition lsh_launch (args : list string) (st : state) : exec_result :=
  match st.(fork_env) st.(nforks) with
  | None => Done 1%Z (perror "lsh" EAGAIN (record_fork None st))
  | Some ws =>
      let st1 := record_fork (Some (mk_child args st.(cwd))) st in
      match wait_loop ws with
      | Some _ => Done 1%Z st1
      | None => Hang st1
      end
  end.

(** ** [lsh_execute] *)

(** The [for] loop over [builtin_str] and [builtin_func]: the first name
    equal to [args[0]] selects its handler. *)
Fixpoint find_builtin (names : list string) (funcs : list handler) (a0 : string)
  : option handler :=
  match names, funcs with
  | n :: ns, f :: fs => if strcmp_eq a0 n then Some f else find_builtin ns fs a0
  | _, _ => None
  end.

Definition lsh_execute (args : list string) (st : state) : exec_result :=
  match args with
  | [] => Done 1%Z st
  | a0 :: _ =>
      match find_builtin builtin_str builtin_func a0 with
      | Some f => let '(r, st') := f args st in Done r st'
      | None => lsh_launch args st
      end
  end.

(** ** [lsh_loop] *)

(** The logging block of one iteration: [if (line[0] != '\0')]. *)
Definition log_line (line : list ascii) (st : state) : state :=
  match line with
  | [] => st
  | c :: _ =>
      if Ascii.eqb c NUL then st
      else if st.(can_append) then
        let '(dir, st1) :=
          match getcwd st with
          | inr p => (p, st)
          | inl e => ("unknown", perror "getcwd error" e st)
          end in
        let record := "[" ++ st.(clock) ++ "] [" ++ dir ++ "] "
                      ++ string_of_list_ascii (cstr line) ++ nl in
        let old := match history_file st1 with Some ls => ls | None => [] end in
        set_history (Some (old ++ [record])%list) st1
      else st
  end.

(** The body of the [do ... while (status)] loop. *)
Definition lsh_loop_body (st : state) : exec_result :=
  let st1 := print_out "> " st in
  let '(line, rest) := lsh_read_line st1.(input) in
  let st2 := log_line line (set_input rest st1) in
  lsh_execute (lsh_split_line line) st2.

(** Running the loop for at most [fuel] iterations. *)
Inductive loop_outcome :=
| Exited (st : state)      (** [status] was 0: [lsh_loop] returned *)
| Blocked (st : state)     (** blocked in [waitpid] *)
| Running (st : state).    (** still looping when the fuel ran out *)

Fixpoint lsh_loop (fuel : nat) (st : state) : loop_outcome :=
  match fuel with
  | O => Running st
  | S n =>
      match lsh_loop_body st with
      | Hang st' => Blocked st'
      | Done status st' => if (status =? 0)%Z then Exited st' else lsh_loop n st'
      end
  end.

(** ** Reference definitions used by the statements *)

(** The tokenizer as the spec words it: the maximal runs of characters
    outside the delimiter set, in order, no empty run.  [fields s] is the run
    that starts [s] (possibly empty) and the runs after it. *)
Fixpoint fields (s : list ascii) : list ascii * list (list ascii) :=
  match s with
  | [] => ([], [])
  | c :: cs =>
      let '(w, ws) := fields cs in
      if is_delim c then ([], match w with [] => ws | _ => w :: ws end)
      else (c :: w, ws)
  end.

Definition words (s : list ascii) : list (list ascii) :=
  let '(w, ws) := fields s in match w with [] => ws | _ => w :: ws end.

(** The first token of an argument vector is [exit]. *)
Definition is_exit (args : list string) : bool :=
  match args with
  | a0 :: _ => String.eqb a0 "exit"
  | [] => false
  end.


(** A session at the start: [/home] and [/tmp] exist, no history yet, every
    [fork] succeeds and the child is stopped once before it exits. *)
Definition sample_state (inp : string) : state :=
  mk_state (list_ascii_of_string inp) [] [] "/home" ["/home"; "/tmp"] true
    (fun _ => None) true "2026-10-19 10:00:00"
    (fun _ => Some [W_STOPCODE 19; W_EXITCODE 0 0]%Z) 0 [].


(** A session deep in a directory tree: six nested directories of 200
    characters each, a path of 1206 bytes (within [PATH_MAX] but too long for
    the 1024-byte buffer of the logging block), with [help] typed at the
    prompt and [history.txt] appendable there. *)
Definition long_dir : string :=
  String.concat EmptyString (repeat ("/" ++ string_of_list_ascii (repeat "d"%char 200)) 6).

Definition long_cwd_state : state :=
  mk_state (list_ascii_of_string ("help" ++ nl)) [] [] long_dir ["/home"; "/tmp"; long_dir] true
    (fun _ => None) true "2026-10-19 10:00:00"
    (fun _ => Some [W_EXITCODE 0 0]%Z) 0 [].

(** Tokens written back as one line, separated by single spaces. *)
Fixpoint join_tokens (ts : list string) : list ascii :=
  match ts with
  | [] => []
  | [t] => list_ascii_of_string t
  | t :: ts' => (list_ascii_of_string t ++ " "%char :: join_tokens ts')%list
  end.

(** A token as [strtok] returns it: non-empty, no delimiter, no NUL. *)
Definition good_token (t : string) : Prop :=
  list_ascii_of_string t <> [] /\
  Forall (fun c => is_delim c = false /\ c <> NUL) (list_ascii_of_string t).

(** * Properties *)

(** ** Return values of the builtins and of the launcher *)

Lemma lsh_cd_status : forall args st, fst (lsh_cd args st) = 1%Z.
Proof.
  intros args st; unfold lsh_cd.
  destruct (nth_error args 1); [destruct (chdir _ _)|]; reflexivity.
Qed.

Lemma lsh_help_status : forall args st, fst (lsh_help args st) = 1%Z.
Proof. reflexivity. Qed.

Lemma lsh_history_status : forall args st, fst (lsh_history args st) = 1%Z.
Proof.
  intros args st; unfold lsh_history.
  destruct (nth_error args 1);
    [destruct (_ =? 0)%Z; [destruct (remove_history st)|] | destruct (history_file _)];
    reflexivity.
Qed.

Lemma lsh_launch_status : forall args st r st',
  lsh_launch args st = Done r st' -> r = 1%Z.
Proof.
  intros args st r st'; unfold lsh_launch.
  destruct (fork_env st (nforks st)) as [ws|]; [destruct (wait_loop ws)|];
    intro H; inversion H; reflexivity.
Qed.

(** The builtins never call [fork]. *)
Lemma builtins_no_fork : forall f, In f builtin_func ->
  forall args st, nforks (snd (f args st)) = nforks st /\
                  children (snd (f args st)) = children st.
Proof.
  intros f Hin args st.
  assert (Hfold : forall ls s, nforks (fold_left (fun s l => print_out l s) ls s) = nforks s /\
                    children (fold_left (fun s l => print_out l s) ls s) = children s).
  { induction ls as [|l ls IH]; intro s; simpl.
    - split; reflexivity.
    - exact (IH (print_out l s)). }
  simpl in Hin; destruct Hin as [<-|[<-|[<-|[<-|[]]]]].
  - unfold lsh_cd; destruct (nth_error args 1); [destruct (chdir _ _) eqn:E|].
    + unfold chdir in E; destruct (chdir_target _ _); inversion E; split; reflexivity.
    + split; reflexivity.
    + split; reflexivity.
  - unfold lsh_help; simpl; split; reflexivity.
  - split; reflexivity.
  - unfold lsh_history; destruct (nth_error args 1).
    + destruct (_ =? 0)%Z; [destruct (remove_history st) eqn:E|].
      * unfold remove_history in E; destruct (history_file st); inversion E;
          split; reflexivity.
      * split; reflexivity.
      * split; reflexivity.
    + destruct (history_file _); [exact (Hfold _ _)|split; reflexivity].
Qed.

(** [lsh_launch] always calls [fork] once. *)
Lemma lsh_launch_forks : forall args st,
  nforks (exec_state (lsh_launch args st)) = S (nforks st).
Proof.
  intros args st; unfold lsh_launch.
  destruct (fork_env st (nforks st)) as [ws|]; [destruct (wait_loop ws)|]; reflexivity.
Qed.

Lemma find_builtin_none : forall a0, ~ In a0 builtin_str ->
  find_builtin builtin_str builtin_func a0 = None.
Proof.
  intros a0 Hn; simpl; unfold strcmp_eq.
  destruct (String.eqb_spec a0 "cd"); [subst; simpl in Hn; tauto|].
  destruct (String.eqb_spec a0 "help"); [subst; simpl in Hn; tauto|].
  destruct (String.eqb_spec a0 "exit"); [subst; simpl in Hn; tauto|].
  destruct (String.eqb_spec a0 "history"); [subst; simpl in Hn; tauto|].
  reflexivity.
Qed.

(** ** C1: only [exit] stops the shell *)

Lemma lsh_execute_status : forall args st,
  (is_exit args = true -> lsh_execute args st = Done 0%Z st) /\
  (forall r st', lsh_execute args st = Done r st' ->
     r = if is_exit args then 0%Z else 1%Z).
Proof.
  intros [|a0 rest] st; cbn -[lsh_cd lsh_help lsh_exit lsh_history lsh_launch].
  - split; [discriminate | intros r st' H; inversion H; reflexivity].
  - unfold strcmp_eq.
    destruct (String.eqb_spec a0 "cd") as [->|Ncd]; cbn -[lsh_cd lsh_help lsh_exit lsh_history lsh_launch].
    { split; [discriminate|]; intros r st' H.
      pose proof (lsh_cd_status ("cd" :: rest) st) as Hs.
      destruct (lsh_cd _ _); inversion H; subst; exact Hs. }
    destruct (String.eqb_spec a0 "help") as [->|Nhelp]; cbn -[lsh_cd lsh_help lsh_exit lsh_history lsh_launch].
    { split; [discriminate|]; intros r st' H.
      pose proof (lsh_help_status ("help" :: rest) st) as Hs.
      destruct (lsh_help _ _); inversion H; subst; exact Hs. }
    destruct (String.eqb_spec a0 "exit") as [->|Nexit]; cbn -[lsh_cd lsh_help lsh_exit lsh_history lsh_launch].
    { split; [reflexivity|]; intros r st' H; inversion H; reflexivity. }
    destruct (String.eqb_spec a0 "history") as [->|Nhist]; cbn -[lsh_cd lsh_help lsh_exit lsh_history lsh_launch].
    { split; [discriminate|]; intros r st' H.
      pose proof (lsh_history_status ("history" :: rest) st) as Hs.
      destruct (lsh_history _ _); inversion H; subst; exact Hs. }
    split; [discriminate|].
    apply lsh_launch_status.
Qed.

(** C1: the continuation status of [lsh_execute] is 0 ("stop") exactly
    when the first token is [exit], whatever follows it; for the empty vector,
    for [cd], [help], [history] and for every external command that returns
    from the launcher, whatever the child did, it is 1 ("continue"). *)
Theorem lsh_execute_stop_iff_exit : forall args st,
  (is_exit args = true -> lsh_execute args st = Done 0%Z st) /\
  (forall r st', lsh_execute args st = Done r st' ->
     r = if is_exit args then 0%Z else 1%Z).
Proof. exact lsh_execute_status. Qed.

(** ** C2: builtin names always select the builtin *)

(** C2: when the first token equals [builtin_str[i]], [lsh_execute] returns
    what [builtin_func[i]] returns on the whole vector, and [fork] is not
    called; when the vector is non-empty and its first token is none of the
    four names, [lsh_execute] is [lsh_launch] on the vector, which calls
    [fork]; the empty vector reaches neither. *)
Theorem lsh_execute_builtin_dispatch : forall st,
  (forall i name f rest,
     nth_error builtin_str i = Some name ->
     nth_error builtin_func i = Some f ->
     lsh_execute (name :: rest) st = (let '(r, st') := f (name :: rest) st in Done r st') /\
     nforks (exec_state (lsh_execute (name :: rest) st)) = nforks st) /\
  (forall a0 rest, ~ In a0 builtin_str ->
     lsh_execute (a0 :: rest) st = lsh_launch (a0 :: rest) st /\
     nforks (exec_state (lsh_execute (a0 :: rest) st)) = S (nforks st)) /\
  lsh_execute [] st = Done 1%Z st.
Proof.
  intro st; split; [|split].
  - intros i name f rest Hn Hf.
    assert (Hin : In f builtin_func) by (eapply nth_error_In; exact Hf).
    assert (Hex : lsh_execute (name :: rest) st =
                  (let '(r, st') := f (name :: rest) st in Done r st')).
    { destruct i as [|[|[|[|i]]]]; simpl in Hn, Hf; inversion Hn; inversion Hf;
        subst; try reflexivity; destruct i; discriminate. }
    split; [exact Hex|]; rewrite Hex.
    destruct (builtins_no_fork f Hin (name :: rest) st) as [Hk _].
    destruct (f (name :: rest) st) as [r st']; exact Hk.
  - intros a0 rest Hn.
    assert (Hex : lsh_execute (a0 :: rest) st = lsh_launch (a0 :: rest) st).
    { unfold lsh_execute; rewrite (find_builtin_none a0 Hn); reflexivity. }
    split; [exact Hex|]; rewrite Hex; apply lsh_launch_forks.
  - reflexivity.
Qed.

Lemma lsh_execute_builtin_dispatch_witness :
  (nth_error builtin_str 2 = Some "exit" /\ nth_error builtin_func 2 = Some lsh_exit /\
   ~ In "ls" builtin_str) /\
  ((lsh_execute ["exit"; "now"] (sample_state EmptyString) =
      (let '(r, st') := lsh_exit ["exit"; "now"] (sample_state EmptyString) in Done r st') /\
    nforks (exec_state (lsh_execute ["exit"; "now"] (sample_state EmptyString))) =
      nforks (sample_state EmptyString)) /\
   (lsh_execute ["ls"; "-l"] (sample_state EmptyString) =
      lsh_launch ["ls"; "-l"] (sample_state EmptyString) /\
    nforks (exec_state (lsh_execute ["ls"; "-l"] (sample_state EmptyString))) =
      S (nforks (sample_state EmptyString)))).
Proof.
  assert (Hls : ~ In "ls" builtin_str)
    by (simpl; intros [H|[H|[H|[H|[]]]]]; discriminate).
  split; [split; [reflexivity | split; [reflexivity | exact Hls]]|].
  destruct (lsh_execute_builtin_dispatch (sample_state EmptyString)) as [H1 [H2 _]].
  split.
  - apply (H1 2%nat); reflexivity.
  - apply H2; exact Hls.
Defined.

(** ** C10: [cd] and [history] look only at [args[1]] *)

(** C10: two argument vectors that agree on their first two entries (the
    second one possibly absent) make [lsh_cd] and [lsh_history] behave
    identically: same status, same resulting state. *)
Theorem lsh_cd_history_first_two : forall args1 args2 st,
  firstn 2 args1 = firstn 2 args2 ->
  lsh_cd args1 st = lsh_cd args2 st /\ lsh_history args1 st = lsh_history args2 st.
Proof.
  intros args1 args2 st H.
  assert (H1 : nth_error args1 1 = nth_error args2 1).
  { destruct args1 as [|a [|b l]], args2 as [|c [|d m]]; simpl in H;
      inversion H; reflexivity. }
  unfold lsh_cd, lsh_history; rewrite H1; split; reflexivity.
Qed.

Lemma lsh_cd_history_first_two_witness :
  firstn 2 ["cd"; "/tmp"; "extra"] = firstn 2 ["cd"; "/tmp"] /\
  (lsh_cd ["cd"; "/tmp"; "extra"] (sample_state EmptyString) =
     lsh_cd ["cd"; "/tmp"] (sample_state EmptyString) /\
   lsh_history ["cd"; "/tmp"; "extra"] (sample_state EmptyString) =
     lsh_history ["cd"; "/tmp"] (sample_state EmptyString)).
Proof.
  split; [reflexivity|].
  apply lsh_cd_history_first_two; reflexivity.
Defined.

(** ** C3: the tokenizer *)

Lemma delim_not_nul : forall c, is_delim c = true -> Ascii.eqb c NUL = false.
Proof.
  intros c H; unfold is_delim in H; apply existsb_exists in H.
  destruct H as [x [Hx Hc]]; apply Ascii.eqb_eq in Hc; subst.
  simpl in Hx; destruct Hx as [<-|[<-|[<-|[<-|[<-|[]]]]]]; reflexivity.
Qed.

Lemma words_delim : forall c s, is_delim c = true -> words (c :: s) = words s.
Proof.
  intros c s H; unfold words; simpl.
  destruct (fields s) as [w ws]; rewrite H; destruct w; reflexivity.
Qed.

Lemma cstr_delim : forall c s, is_delim c = true -> cstr (c :: s) = c :: cstr s.
Proof. intros c s H; simpl; rewrite (delim_not_nul c H); reflexivity. Qed.

Lemma skip_delims_words : forall s, words (cstr (skip_delims s)) = words (cstr s).
Proof.
  induction s as [|c cs IH]; [reflexivity|]; simpl.
  destruct (is_delim c) eqn:Hd; [|reflexivity].
  rewrite IH, <- (words_delim c (cstr cs) Hd); simpl.
  rewrite (delim_not_nul c Hd); reflexivity.
Qed.

Lemma skip_delims_head : forall s c cs, skip_delims s = c :: cs ->
  is_delim c = false /\ (List.length (c :: cs) <= List.length s)%nat.
Proof.
  induction s as [|d ds IH]; intros c cs H; simpl in H; [discriminate|].
  destruct (is_delim d) eqn:Hd.
  - destruct (IH c cs H) as [H1 H2]; split; [exact H1 | simpl in *; lia].
  - inversion H; subst; split; [exact Hd | simpl; lia].
Qed.

Lemma scan_token_fields : forall s,
  fields (cstr s) = (fst (scan_token s), words (cstr (snd (scan_token s)))).
Proof.
  induction s as [|c cs IH]; [reflexivity|].
  simpl; destruct (Ascii.eqb c NUL) eqn:En; [simpl; rewrite En; reflexivity|].
  destruct (is_delim c) eqn:Hd; simpl.
  - rewrite Hd; unfold words; destruct (fields (cstr cs)); reflexivity.
  - rewrite IH, Hd; destruct (scan_token cs) as [t r]; reflexivity.
Qed.

Lemma scan_token_length : forall s,
  (List.length (snd (scan_token s)) <= List.length s)%nat.
Proof.
  induction s as [|c cs IH]; simpl; [lia|].
  destruct (Ascii.eqb c NUL); [simpl; lia|].
  destruct (is_delim c); [simpl; lia|].
  destruct (scan_token cs) as [t r]; simpl in *; lia.
Qed.

Lemma strtok_words : forall s,
  match strtok s with
  | None => words (cstr s) = []
  | Some (tok, rest) =>
      words (cstr s) = tok :: words (cstr rest) /\
      (List.length rest < List.length s)%nat
  end.
Proof.
  intro s; rewrite <- skip_delims_words; unfold strtok.
  destruct (skip_delims s) as [|c cs] eqn:E; [reflexivity|].
  destruct (Ascii.eqb c NUL) eqn:En; [simpl; rewrite En; reflexivity|].
  destruct (skip_delims_head s c cs E) as [Hd Hlen].
  pose proof (scan_token_fields (c :: cs)) as Hf.
  pose proof (scan_token_length cs) as Hl.
  simpl in Hf |- *; rewrite En, Hd in *.
  destruct (scan_token cs) as [t r]; simpl in *.
  rewrite Hd in Hf; unfold words at 1; simpl; rewrite Hd.
  destruct (fields (cstr cs)) as [w ws]; inversion Hf; subst.
  split; [reflexivity | lia].
Qed.

Lemma split_tokens_words : forall n s, (List.length s < n)%nat ->
  split_tokens n s = map string_of_list_ascii (words (cstr s)).
Proof.
  induction n as [|n IH]; intros s Hn; [lia|]; simpl.
  pose proof (strtok_words s) as H.
  destruct (strtok s) as [[tok rest]|].
  - destruct H as [Hw Hl]; rewrite Hw; simpl; f_equal; apply IH; lia.
  - rewrite H; reflexivity.
Qed.

Lemma fields_concat : forall s,
  (fst (fields s) ++ List.concat (snd (fields s)))%list = filter (fun c => negb (is_delim c)) s.
Proof.
  induction s as [|c cs IH]; [reflexivity|]; simpl.
  destruct (fields cs) as [w ws]; simpl in IH.
  destruct (is_delim c); simpl.
  - rewrite <- IH; destruct w; reflexivity.
  - rewrite <- IH; reflexivity.
Qed.

Lemma words_concat : forall s,
  List.concat (words s) = filter (fun c => negb (is_delim c)) s.
Proof.
  intro s; rewrite <- fields_concat; unfold words.
  destruct (fields s) as [w ws]; destruct w; reflexivity.
Qed.

Lemma fields_tokens : forall s,
  Forall (fun c => is_delim c = false) (fst (fields s)) /\
  Forall (fun w => w <> [] /\ Forall (fun c => is_delim c = false) w) (snd (fields s)).
Proof.
  induction s as [|c cs IH]; [split; constructor|]; simpl.
  destruct (fields cs) as [w ws]; simpl in IH; destruct IH as [Hw Hws].
  destruct (is_delim c) eqn:Hd; simpl.
  - split; [constructor|]; destruct w as [|a w]; [exact Hws|].
    constructor; [split; [discriminate | exact Hw] | exact Hws].
  - split; [constructor; [exact Hd | exact Hw] | exact Hws].
Qed.

Lemma words_tokens : forall s,
  Forall (fun w => w <> [] /\ Forall (fun c => is_delim c = false) w) (words s).
Proof.
  intro s; pose proof (fields_tokens s) as [Hw Hws]; unfold words.
  destruct (fields s) as [w ws]; destruct w as [|a w]; [exact Hws|].
  constructor; [split; [discriminate | exact Hw] | exact Hws].
Qed.

Lemma cstr_no_nul : forall s c, In c (cstr s) -> c <> NUL.
Proof.
  induction s as [|d ds IH]; intros c H; simpl in H; [destruct H|].
  destruct (Ascii.eqb_spec d NUL); [destruct H|].
  destruct H as [<-|H]; [exact n | exact (IH c H)].
Qed.

Lemma cstr_all_delims : forall line,
  Forall (fun c => is_delim c = true) line -> cstr line = line.
Proof.
  induction line as [|c cs IH]; intro H; [reflexivity|].
  inversion H; subst; rewrite cstr_delim by assumption; f_equal; apply IH; assumption.
Qed.

Lemma words_all_delims : forall line,
  Forall (fun c => is_delim c = true) line -> words line = [].
Proof.
  intros line H.
  assert (Hf : filter (fun c => negb (is_delim c)) line = []).
  { induction H as [|c cs Hc _ IH]; [reflexivity|]; simpl; rewrite Hc; exact IH. }
  rewrite <- words_concat in Hf; pose proof (words_tokens line) as Ht.
  destruct (words line) as [|w ws]; [reflexivity|].
  inversion Ht as [|? ? [Hne _] _]; subst; simpl in Hf.
  destruct w; [contradiction | discriminate].
Qed.

(** C3: [lsh_split_line] returns the maximal runs of non-delimiter
    characters of the line (as a C string, up to its NUL), in order: each is
    non-empty, has no delimiter and no NUL, and together they hold every
    non-delimiter character of the line in order.  A line made only of
    delimiters (or empty) gives the empty vector, on which [lsh_execute]
    returns 1 and leaves the state as it is: no builtin, no [fork]. *)
Theorem lsh_split_line_spec : forall line,
  lsh_split_line line = map string_of_list_ascii (words (cstr line)) /\
  Forall (fun w => w <> [] /\ Forall (fun c => is_delim c = false /\ c <> NUL) w)
    (words (cstr line)) /\
  List.concat (words (cstr line)) = filter (fun c => negb (is_delim c)) (cstr line) /\
  (Forall (fun c => is_delim c = true) line ->
     lsh_split_line line = [] /\ forall st, lsh_execute (lsh_split_line line) st = Done 1%Z st).
Proof.
  intro line.
  assert (Hsplit : lsh_split_line line = map string_of_list_ascii (words (cstr line)))
    by (apply split_tokens_words; lia).
  split; [exact Hsplit|]; split; [|split].
  - pose proof (words_tokens (cstr line)) as Ht.
    apply Forall_forall; intros w Hw.
    rewrite Forall_forall in Ht; destruct (Ht w Hw) as [Hne Hd]; split; [exact Hne|].
    apply Forall_forall; intros c Hc; split; [exact (proj1 (Forall_forall _ _) Hd c Hc)|].
    apply (cstr_no_nul line).
    assert (Hin : In c (List.concat (words (cstr line)))) by (apply in_concat; exists w; auto).
    rewrite words_concat, filter_In in Hin; exact (proj1 Hin).
  - apply words_concat.
  - intro Hall; rewrite Hsplit, cstr_all_delims, words_all_delims by exact Hall.
    split; [reflexivity | intro st; reflexivity].
Qed.

Lemma lsh_split_line_spec_witness :
  Forall (fun c => is_delim c = true) (list_ascii_of_string (String " " (String "009" (String " " (String "013" EmptyString))))) /\
  (lsh_split_line (list_ascii_of_string (String " " (String "009" (String " " (String "013" EmptyString))))) = [] /\
   forall st, lsh_execute (lsh_split_line (list_ascii_of_string (String " " (String "009" (String " " (String "013" EmptyString)))))) st = Done 1%Z st).
Proof.
  assert (H : Forall (fun c => is_delim c = true)
                (list_ascii_of_string (String " " (String "009" (String " " (String "013" EmptyString))))))
    by (repeat constructor).
  split; [exact H|].
  exact (proj2 (proj2 (proj2 (lsh_split_line_spec _))) H).
Defined.

(** ** C4: the launcher's wait loop *)

Lemma stopped_not_terminated : forall s,
  WIFSTOPPED s = true -> (WIFEXITED s || WIFSIGNALED s) = false.
Proof.
  intros s H; unfold WIFSTOPPED in H; apply Z.eqb_eq in H.
  assert (H7 : Z.land s 127 = 127%Z).
  { replace 127%Z with (Z.land 255 127) at 1 by reflexivity.
    rewrite Z.land_assoc, H; reflexivity. }
  unfold WIFEXITED, WIFSIGNALED; rewrite H7; reflexivity.
Qed.

Lemma wait_loop_skip : forall pre ws,
  Forall (fun x => (WIFEXITED x || WIFSIGNALED x) = false) pre ->
  wait_loop (pre ++ ws) = wait_loop ws.
Proof.
  induction pre as [|x pre IH]; intros ws H; [reflexivity|].
  inversion H as [|? ? Hx Hpre]; subst; simpl.
  apply orb_false_elim in Hx; destruct Hx as [He Hs]; rewrite He, Hs; simpl.
  apply IH; exact Hpre.
Qed.

(** C4: when [fork] fails, [lsh_launch] reports it with [perror] and returns
    1.  When it succeeds, the parent stays in its [waitpid] loop over every
    status that is neither a normal exit nor a death by signal (a stopped
    child's status is such a status) and leaves it on the first status that is
    one of these, returning 1; if no such status comes, it keeps waiting.
    Whenever [lsh_launch] returns, it returns 1. *)
Theorem lsh_launch_wait : forall args st,
  (forall s, WIFSTOPPED s = true -> (WIFEXITED s || WIFSIGNALED s) = false) /\
  (fork_env st (nforks st) = None ->
     lsh_launch args st = Done 1%Z (perror "lsh" EAGAIN (record_fork None st))) /\
  (forall ws, fork_env st (nforks st) = Some ws ->
     (forall pre s post, ws = (pre ++ s :: post)%list ->
        Forall (fun x => (WIFEXITED x || WIFSIGNALED x) = false) pre ->
        (WIFEXITED s || WIFSIGNALED s) = true ->
        wait_loop ws = Some s /\
        lsh_launch args st = Done 1%Z (record_fork (Some (mk_child args (cwd st))) st)) /\
     (Forall (fun x => (WIFEXITED x || WIFSIGNALED x) = false) ws ->
        lsh_launch args st = Hang (record_fork (Some (mk_child args (cwd st))) st))) /\
  (forall r st', lsh_launch args st = Done r st' -> r = 1%Z).
Proof.
  intros args st; split; [exact stopped_not_terminated|]; split; [|split].
  - intro Hf; unfold lsh_launch; rewrite Hf; reflexivity.
  - intros ws Hf; split.
    + intros pre s post -> Hpre Hs.
      assert (Hw : wait_loop (pre ++ s :: post) = Some s).
      { rewrite (wait_loop_skip pre (s :: post) Hpre); simpl.
        destruct (WIFEXITED s), (WIFSIGNALED s); simpl in *;
          solve [reflexivity | discriminate]. }
      split; [exact Hw|]; unfold lsh_launch; rewrite Hf, Hw; reflexivity.
    + intro Hall.
      assert (Hw : wait_loop ws = None).
      { rewrite <- (app_nil_r ws), (wait_loop_skip ws [] Hall); reflexivity. }
      unfold lsh_launch; rewrite Hf, Hw; reflexivity.
  - apply lsh_launch_status.
Qed.

Lemma lsh_launch_wait_witness :
  fork_env (sample_state EmptyString) 0 = Some ([W_STOPCODE 19] ++ [W_EXITCODE 0 0])%list%Z /\
  Forall (fun x => (WIFEXITED x || WIFSIGNALED x) = false) [W_STOPCODE 19%Z] /\
  (WIFEXITED (W_EXITCODE 0 0) || WIFSIGNALED (W_EXITCODE 0 0)) = true /\
  (wait_loop [W_STOPCODE 19; W_EXITCODE 0 0]%Z = Some (W_EXITCODE 0 0) /\
   lsh_launch ["ls"] (sample_state EmptyString) =
     Done 1%Z (record_fork (Some (mk_child ["ls"] (cwd (sample_state EmptyString))))
                 (sample_state EmptyString))).
Proof.
  assert (Hpre : Forall (fun x => (WIFEXITED x || WIFSIGNALED x) = false) [W_STOPCODE 19%Z])
    by (repeat constructor).
  split; [reflexivity|]; split; [exact Hpre|]; split; [reflexivity|].
  destruct (lsh_launch_wait ["ls"] (sample_state EmptyString)) as [_ [_ [H _]]].
  exact (proj1 (H _ eq_refl) [W_STOPCODE 19%Z] (W_EXITCODE 0 0) [] eq_refl Hpre eq_refl).
Defined.

(** ** C5: [history] with a modifier *)











(** ** C6: [cd] and the working directory of later children *)








(** ** C7: failures while logging *)

(** C7 as stated says a failed working-directory lookup emits no
    diagnostic: in a working directory whose path does not fit the 1024-byte
    buffer, [getcwd] fails with [ERANGE] and the iteration that runs [help]
    writes [perror]'s "getcwd error" line to stderr, logs the line under
    "unknown" and still returns 1. *)
Lemma log_line_getcwd_diagnostic :
  stderr (exec_state (lsh_loop_body long_cwd_state)) =
    ["getcwd error: Numerical result out of range" ++ nl] /\
  history_file (exec_state (lsh_loop_body long_cwd_state)) =
    Some ["[2026-10-19 10:00:00] [unknown] help" ++ nl] /\
  (exists st', lsh_loop_body long_cwd_state = Done 1%Z st').
Proof.
  split; [vm_compute; reflexivity|]; split; [vm_compute; reflexivity|].
  eexists; reflexivity.
Qed.

(** C7 (as the code has it): for a non-empty line, when [history.txt]
    cannot be opened the logging block does nothing at all (no output, no
    file change); when it opens but [getcwd] fails, [perror] writes
    "getcwd error: ..." to stderr and the record is still appended with
    "unknown" as its directory field.  Logging touches neither the input,
    the working directory nor the processes, and the iteration always goes on
    to dispatch the line's tokens. *)
Theorem log_line_best_effort : forall c cs st,
  c <> NUL ->
  (can_append st = false -> log_line (c :: cs) st = st) /\
  (forall e, can_append st = true -> getcwd st = inl e ->
     log_line (c :: cs) st =
       set_history
         (Some (app (match history_file st with Some ls => ls | None => [] end)
                ["[" ++ clock st ++ "] [unknown] " ++ string_of_list_ascii (cstr (c :: cs)) ++ nl]))
         (perror "getcwd error" e st)) /\
  input (log_line (c :: cs) st) = input st /\
  cwd (log_line (c :: cs) st) = cwd st /\
  nforks (log_line (c :: cs) st) = nforks st /\
  children (log_line (c :: cs) st) = children st /\
  (forall inp, input st = inp ->
     lsh_loop_body st =
       lsh_execute (lsh_split_line (fst (lsh_read_line inp)))
         (log_line (fst (lsh_read_line inp))
            (set_input (snd (lsh_read_line inp)) (print_out "> " st)))).
Proof.
  intros c cs st Hc.
  assert (En : Ascii.eqb c NUL = false) by (apply Ascii.eqb_neq; exact Hc).
  assert (Hframe : input (log_line (c :: cs) st) = input st /\
                   cwd (log_line (c :: cs) st) = cwd st /\
                   nforks (log_line (c :: cs) st) = nforks st /\
                   children (log_line (c :: cs) st) = children st).
  { unfold log_line; rewrite En; destruct (can_append st); [|repeat split].
    destruct (getcwd st); repeat split. }
  destruct Hframe as [H1 [H2 [H3 H4]]].
  split; [|split; [|repeat split; auto]].
  - intro Ha; unfold log_line; rewrite En, Ha; reflexivity.
  - intros e Ha Hg; unfold log_line; rewrite En, Ha, Hg; reflexivity.
  - intros inp <-; unfold lsh_loop_body; simpl input.
    destruct (lsh_read_line (input st)); reflexivity.
Qed.

Lemma log_line_best_effort_witness :
  ("h"%char <> NUL) /\
  (can_append long_cwd_state = true /\ getcwd long_cwd_state = inl ERANGE) /\
  log_line (list_ascii_of_string "help") long_cwd_state =
    set_history
      (Some (app (match history_file long_cwd_state with Some ls => ls | None => [] end)
             ["[" ++ clock long_cwd_state ++ "] [unknown] "
              ++ string_of_list_ascii (cstr (list_ascii_of_string "help")) ++ nl]))
      (perror "getcwd error" ERANGE long_cwd_state).
Proof.
  assert (Hc : "h"%char <> NUL) by discriminate.
  split; [exact Hc|]; split; [split; reflexivity|].
  destruct (log_line_best_effort "h"%char (list_ascii_of_string "elp") long_cwd_state Hc)
    as [_ [H _]].
  exact (H ERANGE eq_refl eq_refl).
Defined.

(** ** C8: end of input *)

Lemma set_input_same : forall st, set_input (input st) st = st.
Proof. intros []; reflexivity. Qed.

Lemma lsh_read_line_eof : forall s, ~ In NL s ->
  lsh_read_line s = (s, []) /\ lsh_read_line (s ++ [NL])%list = (s, []).
Proof.
  induction s as [|c cs IH]; intro H; [split; reflexivity|].
  assert (Hc : Ascii.eqb c NL = false) by (apply Ascii.eqb_neq; intro E; apply H; left; exact E).
  destruct IH as [IH1 IH2]; [intro E; apply H; right; exact E|].
  simpl; rewrite Hc, IH1, IH2; split; reflexivity.
Qed.

(** One iteration at end of input: a prompt, the empty line, nothing
    logged, the empty vector dispatched. *)
Lemma lsh_loop_body_eof : forall st, input st = [] ->
  lsh_loop_body st = Done 1%Z (print_out "> " st).
Proof.
  intros [inp o e d ds g h a k fe nf ch] H; simpl in H; subst inp; reflexivity.
Qed.

(** C8: at end of input [lsh_read_line] returns the characters read so far,
    exactly as a newline would have ended them; once the input is exhausted
    every iteration prompts, reads the empty line and continues, so the loop
    never ends; and whenever the loop does end, the line read by its last
    iteration had [exit] as its first token. *)
Theorem lsh_eof_never_stops :
  (forall s, ~ In NL s ->
     lsh_read_line s = (s, []) /\ lsh_read_line (s ++ [NL])%list = (s, [])) /\
  (forall n st, input st = [] -> lsh_loop n st = Running (Nat.iter n (print_out "> ") st)) /\
  (forall n st st', lsh_loop n st = Exited st' ->
     exists m sm, (m < n)%nat /\ lsh_loop m st = Running sm /\
       is_exit (lsh_split_line (fst (lsh_read_line (input sm)))) = true).
Proof.
  split; [exact lsh_read_line_eof|]; split.
  - induction n as [|n IH]; intros st H; [reflexivity|].
    simpl lsh_loop; rewrite (lsh_loop_body_eof st H); simpl.
    rewrite (IH (print_out "> " st)) by exact H.
    f_equal; rewrite <- Nat.iter_succ_r; reflexivity.
  - induction n as [|n IH]; intros st st' H; [discriminate|].
    simpl in H; destruct (lsh_loop_body st) as [status s1|s1] eqn:Hb; [|discriminate].
    destruct (Z.eqb_spec status 0) as [->|Hne].
    + exists 0%nat, st; split; [lia | split; [reflexivity|]].
      unfold lsh_loop_body in Hb; simpl input in Hb.
      destruct (lsh_read_line (input st)) as [line rest]; simpl.
      pose proof (proj2 (lsh_execute_status (lsh_split_line line) _) 0%Z s1 Hb) as E.
      destruct (is_exit (lsh_split_line line)); [reflexivity | discriminate].
    + destruct (IH s1 st' H) as [m [sm [Hm [Hl Hx]]]].
      exists (S m), sm; split; [lia|]; split; [|exact Hx].
      simpl; rewrite Hb; destruct (Z.eqb_spec status 0); [contradiction | exact Hl].
Qed.

Lemma lsh_eof_never_stops_witness :
  ~ In NL (list_ascii_of_string "ls") /\
  (lsh_read_line (list_ascii_of_string "ls") = (list_ascii_of_string "ls", []) /\
   lsh_read_line (list_ascii_of_string "ls" ++ [NL])%list = (list_ascii_of_string "ls", [])) /\
  input (sample_state EmptyString) = [] /\
  lsh_loop 3 (sample_state EmptyString) =
    Running (Nat.iter 3 (print_out "> ") (sample_state EmptyString)).
Proof.
  assert (H : ~ In NL (list_ascii_of_string "ls")) by (simpl; intros [E|[E|[]]]; discriminate).
  destruct lsh_eof_never_stops as [H1 [H2 _]].
  split; [exact H|]; split; [exact (H1 _ H)|]; split; [reflexivity|].
  exact (H2 3%nat (sample_state EmptyString) eq_refl).
Defined.

(** ** C9: blank lines are logged *)

Lemma history_file_set : forall v st, history_file (set_history v st) = v.
Proof. intros v st; unfold history_file, set_history; simpl; rewrite String.eqb_refl; reflexivity. Qed.

(** C9: the history record is written when the line read is non-empty, not
    when it has tokens: a non-empty line made only of spaces, tabs, carriage
    returns and bells is appended verbatim to [history.txt] (when it can be
    opened), tokenizes to the empty vector and is dispatched as a no-op that
    returns 1 and forks nothing. *)
Theorem lsh_log_blank_line : forall line rest st,
  line <> [] ->
  Forall (fun c => is_delim c = true /\ c <> NL) line ->
  lsh_read_line (input st) = (line, rest) ->
  can_append st = true ->
  lsh_split_line line = [] /\
  lsh_loop_body st = Done 1%Z (log_line line (set_input rest (print_out "> " st))) /\
  history_file (log_line line (set_input rest (print_out "> " st))) =
    Some (app (match history_file st with Some ls => ls | None => [] end)
           ["[" ++ clock st ++ "] ["
            ++ (match getcwd st with inr p => p | inl _ => "unknown" end)
            ++ "] " ++ string_of_list_ascii line ++ nl]) /\
  nforks (log_line line (set_input rest (print_out "> " st))) = nforks st /\
  children (log_line line (set_input rest (print_out "> " st))) = children st.
Proof.
  intros line rest st Hne Hall Hread Ha.
  assert (Hd : Forall (fun c => is_delim c = true) line)
    by (eapply Forall_impl; [|exact Hall]; intros c [H _]; exact H).
  assert (Hsplit : lsh_split_line line = []).
  { unfold lsh_split_line; rewrite split_tokens_words by lia.
    rewrite cstr_all_delims, words_all_delims by exact Hd; reflexivity. }
  split; [exact Hsplit|]; split.
  - unfold lsh_loop_body; simpl input; rewrite Hread, Hsplit; reflexivity.
  - destruct line as [|c cs]; [contradiction|].
    inversion Hd as [|? ? Hc _]; subst.
    unfold log_line; rewrite (delim_not_nul c Hc).
    change (can_append (set_input rest (print_out "> " st))) with (can_append st); rewrite Ha.
    change (getcwd (set_input rest (print_out "> " st))) with (getcwd st).
    rewrite (cstr_all_delims (c :: cs) Hd).
    destruct (getcwd st) as [e|p]; rewrite history_file_set;
      (split; [reflexivity | split; reflexivity]).
Qed.

Lemma lsh_log_blank_line_witness :
  list_ascii_of_string "  " <> [] /\
  Forall (fun c => is_delim c = true /\ c <> NL) (list_ascii_of_string "  ") /\
  lsh_read_line (input (sample_state ("  " ++ nl ++ "ls"))) =
    (list_ascii_of_string "  ", list_ascii_of_string "ls") /\
  can_append (sample_state ("  " ++ nl ++ "ls")) = true /\
  (lsh_split_line (list_ascii_of_string "  ") = [] /\
   lsh_loop_body (sample_state ("  " ++ nl ++ "ls")) =
     Done 1%Z (log_line (list_ascii_of_string "  ")
                 (set_input (list_ascii_of_string "ls")
                    (print_out "> " (sample_state ("  " ++ nl ++ "ls")))))).
Proof.
  assert (H1 : list_ascii_of_string "  " <> []) by discriminate.
  assert (H2 : Forall (fun c => is_delim c = true /\ c <> NL) (list_ascii_of_string "  "))
    by (repeat constructor; discriminate).
  split; [exact H1|]; split; [exact H2|]; split; [reflexivity|]; split; [reflexivity|].
  destruct (lsh_log_blank_line _ _ (sample_state ("  " ++ nl ++ "ls")) H1 H2 eq_refl eq_refl)
    as [A [B _]].
  split; [exact A | exact B].
Defined.

(** * Further properties of the code *)

(** ** The tokenizer on its own output *)

Lemma fields_word_delim : forall w c rest,
  Forall (fun x => is_delim x = false) w -> is_delim c = true ->
  fields (w ++ c :: rest)%list = (w, words rest).
Proof.
  induction w as [|a w IH]; intros c rest Hw Hc; simpl.
  - unfold words; destruct (fields rest) as [w' ws]; rewrite Hc; reflexivity.
  - inversion Hw as [|? ? Ha Hw']; subst.
    rewrite (IH c rest Hw' Hc), Ha; reflexivity.
Qed.

Lemma fields_word : forall w,
  Forall (fun x => is_delim x = false) w -> fields w = (w, []).
Proof.
  induction w as [|a w IH]; intro Hw; [reflexivity|].
  inversion Hw as [|? ? Ha Hw']; subst; simpl; rewrite (IH Hw'), Ha; reflexivity.
Qed.

Lemma cstr_no_nul_id : forall s, Forall (fun c => c <> NUL) s -> cstr s = s.
Proof.
  induction s as [|c cs IH]; intro H; [reflexivity|].
  inversion H as [|? ? Hc Hcs]; subst; simpl.
  destruct (Ascii.eqb_spec c NUL); [contradiction | rewrite (IH Hcs); reflexivity].
Qed.

Lemma lsh_split_line_good : forall line, Forall good_token (lsh_split_line line).
Proof.
  intro line; unfold lsh_split_line; rewrite split_tokens_words by lia.
  pose proof (words_tokens (cstr line)) as Ht.
  apply Forall_map, Forall_forall; intros w Hw; unfold good_token.
  rewrite list_ascii_of_string_of_list_ascii.
  rewrite Forall_forall in Ht; destruct (Ht w Hw) as [Hne Hd]; split; [exact Hne|].
  apply Forall_forall; intros c Hc; split; [exact (proj1 (Forall_forall _ _) Hd c Hc)|].
  apply (cstr_no_nul line).
  assert (Hin : In c (List.concat (words (cstr line)))) by (apply in_concat; exists w; auto).
  rewrite words_concat, filter_In in Hin; exact (proj1 Hin).
Qed.

Lemma join_tokens_no_nul : forall ts, Forall good_token ts ->
  Forall (fun c => c <> NUL) (join_tokens ts).
Proof.
  induction ts as [|t ts IH]; intro H; [constructor|].
  inversion H as [|? ? [_ Ht] Hts]; subst.
  assert (Ht' : Forall (fun c => c <> NUL) (list_ascii_of_string t))
    by (eapply Forall_impl; [|exact Ht]; intros c [_ Hc]; exact Hc).
  destruct ts as [|t' ts']; [exact Ht'|].
  simpl; apply Forall_app; split; [exact Ht'|].
  constructor; [discriminate | exact (IH Hts)].
Qed.

Lemma words_join_tokens : forall ts, Forall good_token ts ->
  map string_of_list_ascii (words (join_tokens ts)) = ts.
Proof.
  induction ts as [|t ts IH]; intro H; [reflexivity|].
  inversion H as [|? ? [Hne Ht] Hts]; subst.
  assert (Hd : Forall (fun c => is_delim c = false) (list_ascii_of_string t))
    by (eapply Forall_impl; [|exact Ht]; intros c [Hc _]; exact Hc).
  destruct ts as [|t' ts'].
  - unfold words; simpl; rewrite (fields_word _ Hd).
    destruct (list_ascii_of_string t) eqn:E; [contradiction|].
    cbv iota beta; rewrite <- E; cbn [map]; rewrite string_of_list_ascii_of_string; reflexivity.
  - change (join_tokens (t :: t' :: ts'))
      with (list_ascii_of_string t ++ " "%char :: join_tokens (t' :: ts'))%list.
    remember (join_tokens (t' :: ts')) as J eqn:HJ.
    unfold words at 1; rewrite (fields_word_delim _ " "%char _ Hd eq_refl).
    destruct (list_ascii_of_string t) eqn:E; [contradiction|].
    cbv iota beta; rewrite <- E; cbn [map].
    rewrite string_of_list_ascii_of_string, (IH Hts); reflexivity.
Qed.

(** [lsh_split_line] of its own tokens, written back with single spaces,
    gives the same tokens: splitting normalises the spacing of a line and
    nothing else. *)
Theorem lsh_split_line_join : forall line,
  lsh_split_line (join_tokens (lsh_split_line line)) = lsh_split_line line.
Proof.
  intro line; pose proof (lsh_split_line_good line) as Hg.
  unfold lsh_split_line at 1; rewrite split_tokens_words by lia.
  rewrite (cstr_no_nul_id _ (join_tokens_no_nul _ Hg)).
  exact (words_join_tokens _ Hg).
Qed.

(** ** [lsh_read_line] *)

(** [lsh_read_line] returns the input up to its first newline, which it
    consumes, or the whole input and EOF when there is no newline: the line
    never holds a newline. *)
Theorem lsh_read_line_split : forall inp,
  ~ In NL (fst (lsh_read_line inp)) /\
  (inp = (fst (lsh_read_line inp) ++ NL :: snd (lsh_read_line inp))%list \/
   (inp = fst (lsh_read_line inp) /\ snd (lsh_read_line inp) = [])).
Proof.
  induction inp as [|c cs IH]; simpl; [split; [tauto | right; split; reflexivity]|].
  destruct (Ascii.eqb_spec c NL) as [->|Hc]; simpl.
  - split; [tauto | left; reflexivity].
  - destruct (lsh_read_line cs) as [l r]; simpl in *.
    destruct IH as [Hn [-> | [-> ->]]]; (split; [intros [E|E]; [exact (Hc E) | exact (Hn E)]|]).
    + left; reflexivity.
    + right; split; reflexivity.
Qed.

(** ** Blank lines *)

(** A line that is empty as a C string (Enter alone, or a line starting with
    a NUL byte) is neither logged nor dispatched: the iteration prints the
    prompt, consumes the line and returns 1. *)
Theorem lsh_loop_body_blank : forall st line rest,
  lsh_read_line (input st) = (line, rest) -> cstr line = [] ->
  lsh_loop_body st = Done 1%Z (set_input rest (print_out "> " st)).
Proof.
  intros st line rest Hr Hc.
  assert (Hs : lsh_split_line line = []).
  { unfold lsh_split_line; rewrite split_tokens_words by lia; rewrite Hc; reflexivity. }
  assert (Hl : forall s, log_line line s = s).
  { intro s; destruct line as [|c cs]; [reflexivity|]; simpl in Hc |- *.
    destruct (Ascii.eqb c NUL); [reflexivity | discriminate]. }
  unfold lsh_loop_body; simpl input; rewrite Hr, Hl, Hs; reflexivity.
Qed.

Lemma lsh_loop_body_blank_witness :
  lsh_read_line (input (sample_state (nl ++ "ls"))) =
    ([], list_ascii_of_string "ls") /\
  cstr [] = [] /\
  lsh_loop_body (sample_state (nl ++ "ls")) =
    Done 1%Z (set_input (list_ascii_of_string "ls") (print_out "> " (sample_state (nl ++ "ls")))).
Proof.
  split; [reflexivity|]; split; [reflexivity|].
  exact (lsh_loop_body_blank (sample_state (nl ++ "ls")) [] _ eq_refl eq_refl).
Defined.

(** ** Logging and dispatch together *)


Lemma lsh_loop_body_eq : forall st line rest,
  lsh_read_line (input st) = (line, rest) ->
  lsh_loop_body st =
    lsh_execute (lsh_split_line line) (log_line line (set_input rest (print_out "> " st))).
Proof. intros st line rest Hr; unfold lsh_loop_body; simpl input; rewrite Hr; reflexivity. Qed.

(** The record [log_line] appends, with [getcwd]'s answer or "unknown". *)
Lemma lsh_split_line_nonempty : forall line, lsh_split_line line <> [] ->
  exists c cs, line = c :: cs /\ c <> NUL.
Proof.
  intros [|c cs] H; [exfalso; apply H; reflexivity|].
  exists c, cs; split; [reflexivity|]; intro E; subst c; apply H.
  unfold lsh_split_line; rewrite split_tokens_words by lia; reflexivity.
Qed.

Lemma log_line_append : forall c cs st, c <> NUL -> can_append st = true ->
  log_line (c :: cs) st =
    set_history
      (Some (app (match history_file st with Some ls => ls | None => [] end)
               ["[" ++ clock st ++ "] ["
                ++ (match getcwd st with inr p => p | inl _ => "unknown" end)
                ++ "] " ++ string_of_list_ascii (cstr (c :: cs)) ++ nl]))
      (match getcwd st with inr _ => st | inl e => perror "getcwd error" e st end).
Proof.
  intros c cs st Hc Ha; unfold log_line.
  assert (En : Ascii.eqb c NUL = false) by (apply Ascii.eqb_neq; exact Hc).
  rewrite En, Ha; destruct (getcwd st); reflexivity.
Qed.




(** ** [lsh_help] and the dispatch table *)

Lemma fold_print_out_map : forall (g : string -> string) ls s,
  fold_left (fun s b => print_out (g b) s) ls s =
  mk_state s.(input) (app s.(stdout) (map g ls)) s.(stderr) s.(cwd) s.(dirs) s.(getcwd_ok)
    s.(history_files) s.(can_append) s.(clock) s.(fork_env) s.(nforks) s.(children).
Proof.
  intro g; induction ls as [|l ls IH]; intro s; simpl.
  - rewrite app_nil_r; destruct s; reflexivity.
  - rewrite IH; simpl; rewrite <- app_assoc; reflexivity.
Qed.

Lemma append_nl_inj : forall a b, a ++ nl = b ++ nl -> a = b.
Proof.
  induction a as [|x a IH]; intros [|y b] H; simpl in H.
  - reflexivity.
  - injection H as _ H; destruct b; discriminate H.
  - injection H as _ H; destruct a; discriminate H.
  - injection H as -> H; rewrite (IH b H); reflexivity.
Qed.

Lemma find_builtin_some_iff : forall a0,
  find_builtin builtin_str builtin_func a0 <> None <-> In a0 builtin_str.
Proof.
  intro a0; simpl; unfold strcmp_eq.
  destruct (String.eqb_spec a0 "cd"); [subst; simpl; split; [tauto | discriminate]|].
  destruct (String.eqb_spec a0 "help"); [subst; simpl; split; [tauto | discriminate]|].
  destruct (String.eqb_spec a0 "exit"); [subst; simpl; split; [tauto | discriminate]|].
  destruct (String.eqb_spec a0 "history"); [subst; simpl; split; [tauto | discriminate]|].
  split; [intro H; exfalso; apply H; reflexivity|].
  intros [E|[E|[E|[E|[]]]]]; congruence.
Qed.

(** [help] returns 1, whatever its arguments, and only writes to standard
    output; an indented line [  name] is added to the output exactly for the
    names [lsh_execute] dispatches to a builtin handler, so the listing and
    the dispatch table cannot disagree. *)
Theorem lsh_help_lists_builtins : forall args st,
  fst (lsh_help args st) = 1%Z /\
  (exists out, snd (lsh_help args st) =
     mk_state st.(input) (app st.(stdout) out) st.(stderr) st.(cwd) st.(dirs) st.(getcwd_ok)
       st.(history_files) st.(can_append) st.(clock) st.(fork_env) st.(nforks) st.(children) /\
     forall a0, In ("  " ++ a0 ++ nl) out <-> find_builtin builtin_str builtin_func a0 <> None).
Proof.
  intros args st; split; [reflexivity|].
  exists (app ["Kritarth Dande's LSH" ++ nl;
               "Type program names and arguments, and hit enter." ++ nl;
               "The following are built in:" ++ nl]
            (app (map (fun b => "  " ++ b ++ nl) builtin_str)
               ["Use the man command for information on other programs." ++ nl])).
  split.
  - unfold lsh_help; cbn [snd]; rewrite fold_print_out_map.
    unfold print_out; cbn; rewrite <- !app_assoc; reflexivity.
  - intro a0; rewrite find_builtin_some_iff, !in_app_iff, in_map_iff; cbn [In]; split.
    + intros [[E|[E|[E|[]]]]|[[b [E Hb]]|[E|[]]]]; try (destruct a0; discriminate E).
      injection E as E; apply append_nl_inj in E; subst; exact Hb.
    + intro H; right; left; exists a0; split; [reflexivity | exact H].
Qed.

(** ** The wait-status macros *)

Lemma land_encode : forall a b n, (0 <= n <= 8)%Z ->
  Z.land (Z.lor (Z.shiftl a 8) b) (Z.ones n) = Z.land b (Z.ones n).
Proof.
  intros a b n Hn; apply Z.bits_inj'; intros i Hi.
  rewrite !Z.land_spec, Z.lor_spec, Z.shiftl_spec by lia.
  destruct (Z.lt_ge_cases i n) as [Hl|Hg].
  - rewrite (Z.testbit_neg_r a (i - 8)) by lia; reflexivity.
  - rewrite Z.ones_spec_high by lia; rewrite !andb_false_r; reflexivity.
Qed.

Lemma W_EXITCODE_low7 : forall code sig,
  Z.land (W_EXITCODE code sig) 127 = Z.land sig 127.
Proof. intros; change 127%Z with (Z.ones 7); apply land_encode; lia. Qed.

Lemma W_EXITCODE_low8 : forall code sig,
  Z.land (W_EXITCODE code sig) 255 = Z.land sig 255.
Proof. intros; change 255%Z with (Z.ones 8); apply land_encode; lia. Qed.

Lemma W_STOPCODE_low7 : forall sig, Z.land (W_STOPCODE sig) 127 = 127%Z.
Proof. intros; change 127%Z with (Z.ones 7); unfold W_STOPCODE; rewrite land_encode by lia; reflexivity. Qed.

Lemma W_STOPCODE_low8 : forall sig, Z.land (W_STOPCODE sig) 255 = 127%Z.
Proof. intros; change 255%Z with (Z.ones 8); unfold W_STOPCODE; rewrite land_encode by lia; reflexivity. Qed.

(** The glibc macros [lsh_launch] tests decode the kernel's three encodings
    apart, whatever the high byte: a normal exit (signal 0) is exited only, a
    death by a signal 1..126 is signaled only, and a stop is stopped only
    (so the wait loop ends on the first two and goes on after the third). *)
Theorem wait_status_decoding :
  (forall code, WIFEXITED (W_EXITCODE code 0) = true /\
     WIFSIGNALED (W_EXITCODE code 0) = false /\ WIFSTOPPED (W_EXITCODE code 0) = false) /\
  (forall code sig, (1 <= sig <= 126)%Z ->
     WIFEXITED (W_EXITCODE code sig) = false /\
     WIFSIGNALED (W_EXITCODE code sig) = true /\ WIFSTOPPED (W_EXITCODE code sig) = false) /\
  (forall sig, WIFSTOPPED (W_STOPCODE sig) = true /\
     WIFEXITED (W_STOPCODE sig) = false /\ WIFSIGNALED (W_STOPCODE sig) = false).
Proof.
  split; [|split].
  - intro code; unfold WIFEXITED, WIFSIGNALED, WIFSTOPPED.
    rewrite W_EXITCODE_low7, W_EXITCODE_low8; repeat split; reflexivity.
  - intros code sig Hs; unfold WIFEXITED, WIFSIGNALED, WIFSTOPPED.
    rewrite W_EXITCODE_low7, W_EXITCODE_low8.
    assert (H7 : Z.land sig 127 = sig).
    { change 127%Z with (Z.ones 7); rewrite Z.land_ones by lia; apply Z.mod_small.
      change (2 ^ 7)%Z with 128%Z; lia. }
    assert (H8 : Z.land sig 255 = sig).
    { change 255%Z with (Z.ones 8); rewrite Z.land_ones by lia; apply Z.mod_small.
      change (2 ^ 8)%Z with 256%Z; lia. }
    rewrite H7, H8; split; [apply Z.eqb_neq; lia|]; split; [|apply Z.eqb_neq; lia].
    unfold signed_char.
    assert (Hb : Z.land (sig + 1) 255 = (sig + 1)%Z).
    { change 255%Z with (Z.ones 8); rewrite Z.land_ones by lia; apply Z.mod_small.
      change (2 ^ 8)%Z with 256%Z; lia. }
    rewrite Hb; destruct (Z.ltb_spec (sig + 1) 128) as [_|]; [|lia].
    rewrite Z.shiftr_div_pow2 by lia; change (2 ^ 1)%Z with 2%Z.
    rewrite Z.gtb_ltb; apply Z.ltb_lt; apply Z.div_str_pos; lia.
  - intro sig; unfold WIFEXITED, WIFSIGNALED, WIFSTOPPED.
    rewrite W_STOPCODE_low7, W_STOPCODE_low8; repeat split; reflexivity.
Qed.

Lemma wait_status_decoding_witness :
  (1 <= 9 <= 126)%Z /\ WIFSIGNALED (W_EXITCODE 0 9) = true.
Proof.
  split; [lia|].
  exact (proj1 (proj2 (proj1 (proj2 wait_status_decoding) 0%Z 9%Z ltac:(lia)))).
Defined.

(** ** Leaving the loop *)

(** [exit] is logged like any other line before it stops the loop: when the
    log can be opened, the run ends on the iteration that reads it, with its
    record last in [history.txt], having printed only the prompt. *)
Theorem lsh_loop_exit_logged : forall n st line rest args,
  lsh_read_line (input st) = (line, rest) ->
  lsh_split_line line = "exit" :: args ->
  can_append st = true ->
  exists st', lsh_loop (S n) st = Exited st' /\
    history_file st' =
      Some (app (match history_file st with Some ls => ls | None => [] end)
              ["[" ++ clock st ++ "] ["
               ++ (match getcwd st with inr p => p | inl _ => "unknown" end)
               ++ "] " ++ string_of_list_ascii (cstr line) ++ nl]) /\
    stdout st' = app (stdout st) ["> "] /\ input st' = rest /\
    children st' = children st /\ nforks st' = nforks st.
Proof.
  intros n st line rest args Hr Hs Ha.
  destruct (lsh_split_line_nonempty line) as [c [cs [-> Hc]]]; [rewrite Hs; discriminate|].
  cbn [lsh_loop]; rewrite (lsh_loop_body_eq st _ rest Hr), Hs.
  rewrite (log_line_append c cs (set_input rest (print_out "> " st)) Hc Ha).
  change (getcwd (set_input rest (print_out "> " st))) with (getcwd st).
  change (history_file (set_input rest (print_out "> " st))) with (history_file st).
  destruct (getcwd st) as [e|p] eqn:Eg; cbn;
    (eexists; split; [reflexivity|]);
    (split; [unfold history_file; simpl; rewrite String.eqb_refl; reflexivity|]);
    repeat split.
Qed.

Lemma lsh_loop_exit_logged_witness :
  exists st', lsh_loop 5 (sample_state ("exit" ++ nl ++ "ls" ++ nl)) = Exited st' /\
    history_file st' = Some ["[2026-10-19 10:00:00] [/home] exit" ++ nl] /\
    stdout st' = ["> "] /\ children st' = [].
Proof.
  destruct (lsh_loop_exit_logged 4 (sample_state ("exit" ++ nl ++ "ls" ++ nl))
              (list_ascii_of_string "exit") (list_ascii_of_string ("ls" ++ nl)) []
              eq_refl eq_refl eq_refl) as [st' [E [H [O [_ [K _]]]]]].
  exists st'; split; [exact E|]; split; [rewrite H; reflexivity|].
  split; [rewrite O; reflexivity | rewrite K; reflexivity].
Defined.
